(** * greet-mcp-httpstream: the MCP server's session dispatch and greeting tools

    A shallow embedding of [MCPServer] (server.ts): the three HTTP verb
    handlers over the session table, the tool-list and tool-call request
    handlers, the periodic tools-changed broadcast and the error-response
    constructor.  The MCP SDK (transport, protocol server, Express response)
    is an external collaborator and enters through the [SDK] interface. *)

From Stdlib Require Import ZArith String List Lia.
From stdpp Require Import base option gmap strings list fin_maps.
Import ListNotations.

Local Open Scope string_scope.
Local Open Scope Z_scope.
Local Open Scope list_scope.

(** ** JavaScript values reaching the tool handlers

    [request.params.arguments] is a JSON object; the handlers only read its
    [name] member, test it for truthiness and interpolate it in a template
    literal.  The JSON scalars null, booleans and strings are modelled, and
    [JUndefined] is what reading a missing member yields. *)
Module Js.

Inductive value :=
| JUndefined
| JNull
| JBool (b : bool)
| JStr (s : string).

(** [!s] on a string: only the empty string is falsy. *)
Definition truthy_string (s : string) : bool :=
  match s with
  | EmptyString => false
  | String _ _ => true
  end.

(** [!v] is [negb (truthy v)]. *)
Definition truthy (v : value) : bool :=
  match v with
  | JUndefined => false
  | JNull => false
  | JBool b => b
  | JStr s => truthy_string s
  end.

(** The string a template literal [`${v}`] splices in. *)
Definition toString (v : value) : string :=
  match v with
  | JUndefined => "undefined"
  | JNull => "null"
  | JBool true => "true"
  | JBool false => "false"
  | JStr s => s
  end.

(** [obj[key]] on a JSON object: a missing member reads as [undefined]. *)
Definition get (obj : gmap string value) (key : string) : value :=
  default JUndefined (obj !! key).

(** [!h] on an optional header value ([string | undefined]). *)
Definition truthy_header (h : option string) : bool :=
  match h with
  | None => false
  | Some s => truthy_string s
  end.

End Js.

(** ** Protocol messages *)

Record LoggingParams := {
  level : string;
  data : string
}.

(** [Notification]: a method and, for logging messages, their params. *)
Record Notification := {
  method : string;
  params : option LoggingParams
}.

Record JSONRPCNotification := {
  n_jsonrpc : string;
  n_method : string;
  n_params : option LoggingParams
}.

Record TextContent := {
  type : string;
  text : string
}.

Record CallToolResult := {
  content : list TextContent
}.

Record CallToolRequest := {
  req_arguments : option (gmap string Js.value);
  req_name : string
}.

Record JSONRPCErrorBody := {
  code : Z;
  message : string
}.

Record JSONRPCError := {
  jsonrpc : string;
  error : JSONRPCErrorBody;
  id : string
}.

Record InputSchema := {
  schema_type : string;
  schema_properties : list (string * (string * string));
  schema_required : list string
}.

Record Tool := {
  tool_name : string;
  tool_description : string;
  inputSchema : InputSchema
}.

Record ListToolsResult := {
  tools : list Tool
}.

Definition SESSION_ID_HEADER_NAME : string := "mcp-session-id".
Definition JSON_RPC : string := "2.0".

(** ** Asynchronous handlers

    A request handler runs against the caller's session: every awaited
    [sendNotification] that resolves and every [sleep] is appended to the
    session's trace, and the handler ends by returning or by throwing. *)

Inductive Event :=
| Notified (n : Notification)
| Slept (ms : Z).

Inductive Outcome (A : Type) :=
| Returned (a : A)
| Thrown (e : string).
Arguments Returned {A} a.
Arguments Thrown {A} e.

(** [extra], the per-request context the protocol layer hands to a handler.
    [sendNotification] resolves ([None]) or rejects with an error; it may
    depend on everything the session has seen so far. *)
Record RequestHandlerExtra := {
  extra_sendNotification : list Event -> Notification -> option string
}.

Definition Async (A : Type) : Type := list Event -> list Event * Outcome A.

Definition ret {A} (a : A) : Async A := fun tr => (tr, Returned a).

Definition throw {A} (e : string) : Async A := fun tr => (tr, Thrown e).

Definition bind {A B} (m : Async A) (f : A -> Async B) : Async B :=
  fun tr =>
    match m tr with
    | (tr', Returned a) => f a tr'
    | (tr', Thrown e) => (tr', Thrown e)
    end.

#[global] Instance Async_ret : MRet Async := @ret.
#[global] Instance Async_bind : MBind Async := fun A B f m => bind m f.

(** [await sendNotification(n)]: the notification is written out as it is
    when the send is awaited, so a later assignment to its [params.data]
    does not reach what was sent. *)
Definition send (extra : RequestHandlerExtra) (n : Notification) : Async unit :=
  fun tr =>
    match extra_sendNotification extra tr n with
    | None => (tr ++ [Notified n], Returned tt)
    | Some e => (tr, Thrown e)
    end.

(** [await sleep(ms)] *)
Definition sleep (ms : Z) : Async unit :=
  fun tr => (tr ++ [Slept ms], Returned tt).

(** [notification.params.data = d] *)
Definition set_data (n : Notification) (d : string) : Notification :=
  {| method := method n;
     params := (fun p => {| level := level p; data := d |}) <$> params n |}.

(** What the caller's session receives for one request: the notifications in
    the order they were sent, then the terminal response (a result, or the
    error the protocol layer makes of a thrown exception). *)
Inductive Message :=
| NotificationMessage (n : Notification)
| ResultMessage (r : CallToolResult)
| ErrorMessage (e : string).

Definition notification_of (ev : Event) : option Message :=
  match ev with
  | Notified n => Some (NotificationMessage n)
  | Slept _ => None
  end.

Definition session_messages (run : list Event * Outcome CallToolResult)
  : list Message :=
  omap notification_of run.1 ++
  [match run.2 with
   | Returned r => ResultMessage r
   | Thrown e => ErrorMessage e
   end].

(** ** The SDK boundary *)

(** [StreamableHTTPServerTransport], as far as [MCPServer] reads it. *)
Record Transport := {
  sessionId : option string
}.

(** [req.body], the parsed JSON body, kept as its text. *)
Definition Body : Type := string.

Inductive Verb := GET | POST | DELETE.

(** An Express request: its verb, the [mcp-session-id] header and the body. *)
Record Request := {
  http_method : Verb;
  session_header : option string;
  body : Body
}.

(** The protocol server object: the methods that have a request handler. *)
Record Server := {
  requestHandlers : gset string
}.

Definition ListToolsRequestSchema : string := "tools/list".
Definition CallToolRequestSchema : string := "tools/call".

(** [server.setRequestHandler(schema, handler)] *)
Definition setRequestHandler (srv : Server) (schema : string) : Server :=
  {| requestHandlers := {[schema]} ∪ requestHandlers srv |}.

(** What one [transport.handleRequest(req, res)] did, seen from [MCPServer]:
    whether it threw, whether it had started the response, and which of the
    callbacks installed by [MCPServer] it ran. *)
Record HandleResult := {
  thrown : bool;
  headersSent : bool;
  initialized : bool;
  closed : bool
}.

Class SDK := {
  isInitializeRequest : Body -> bool;
  (** [server.connect(transport)] resolves ([true]) or rejects. *)
  server_connect : Server -> Transport -> bool;
  transport_handleRequest : Transport -> Request -> HandleResult;
  (** [transport.send(message)] resolves ([true]) or rejects. *)
  transport_send : Transport -> JSONRPCNotification -> bool
}.

(** The members an object literal such as [this.transports] inherits from
    [Object.prototype].  Reading one of them where no session is stored under
    that name yields a function (for [__proto__], the prototype object):
    a truthy value that is not a transport. *)
Definition Object_prototype_members : list string :=
  [ "constructor"; "__proto__"; "hasOwnProperty"; "isPrototypeOf";
    "propertyIsEnumerable"; "toLocaleString"; "toString"; "valueOf";
    "__defineGetter__"; "__defineSetter__"; "__lookupGetter__";
    "__lookupSetter__" ].

(** What [this.transports[key]] evaluates to. *)
Inductive property :=
| Own (transport : Transport)
| Inherited
| Undefined.

Definition get_property (m : gmap string Transport) (key : string) : property :=
  match m !! key with
  | Some transport => Own transport
  | None =>
    if existsb (String.eqb key) Object_prototype_members then Inherited
    else Undefined
  end.

Definition property_truthy (p : property) : bool :=
  match p with
  | Own _ | Inherited => true
  | Undefined => false
  end.

(** The body of an HTTP response issued by [MCPServer] itself. *)
Inductive Payload :=
| JsonPayload (e : JSONRPCError)
| TextPayload (s : string).

(** How a verb handler answers: with a response of its own
    ([res.status(s).json(..)] or [res.status(s).send(..)]), by leaving the
    response to the transport, or not at all (its promise rejects). *)
Inductive Reply :=
| Sent (status : Z) (p : Payload)
| Delegated (transport : Transport)
| Rejected.

(** ** The server *)
Module MCPServer.

Record t := {
  server : Server;
  transports : gmap string Transport;
  (** the interval timer's period once armed *)
  toolInterval : option Z;
  singleGreetToolName : string;
  multiGreetToolName : string
}.

Definition with_server (st : t) (srv : Server) : t :=
  {| server := srv;
     transports := transports st;
     toolInterval := toolInterval st;
     singleGreetToolName := singleGreetToolName st;
     multiGreetToolName := multiGreetToolName st |}.

Definition with_transports (st : t) (m : gmap string Transport) : t :=
  {| server := server st;
     transports := m;
     toolInterval := toolInterval st;
     singleGreetToolName := singleGreetToolName st;
     multiGreetToolName := multiGreetToolName st |}.

Definition with_toolInterval (st : t) (i : option Z) : t :=
  {| server := server st;
     transports := transports st;
     toolInterval := i;
     singleGreetToolName := singleGreetToolName st;
     multiGreetToolName := multiGreetToolName st |}.

Definition with_singleGreetToolName (st : t) (n : string) : t :=
  {| server := server st;
     transports := transports st;
     toolInterval := toolInterval st;
     singleGreetToolName := n;
     multiGreetToolName := multiGreetToolName st |}.

Definition nameSchema : InputSchema :=
  {| schema_type := "object";
     schema_properties := [("name", ("string", "name to greet"))];
     schema_required := ["name"] |}.

(** The handler installed for [ListToolsRequestSchema]; [uuid] is what
    [randomUUID()] returns in it. *)
Definition listToolsHandler (st : t) (uuid : string) : t * ListToolsResult :=
  let st := with_singleGreetToolName st ("single-greeting-" +:+ uuid) in
  let singleGreetTool :=
    {| tool_name := singleGreetToolName st;
       tool_description := "Greet the user once.";
       inputSchema := nameSchema |} in
  let multiGreetTool :=
    {| tool_name := multiGreetToolName st;
       tool_description := "Greet the user multiple times with delay in between.";
       inputSchema := nameSchema |} in
  (st, {| tools := [singleGreetTool; multiGreetTool] |}).

(** [setToolSchema()]: (re-)installs the handler above. *)
Definition setToolSchema (st : t) : t :=
  with_server st (setRequestHandler (server st) ListToolsRequestSchema).

(** The handler installed for [CallToolRequestSchema]. *)
Definition callToolHandler (st : t) (extra : RequestHandlerExtra)
    (request : CallToolRequest) : Async CallToolResult :=
  let toolName := req_name request in
  match req_arguments request with
  | None => throw "arguments undefined"
  | Some args =>
    if negb (Js.truthy_string toolName) then throw "tool name undefined"
    else if String.eqb toolName (singleGreetToolName st) then
      let name := Js.get args "name" in
      if negb (Js.truthy name) then throw "Name to greet undefined."
      else
        mret {| content :=
          [ {| type := "text";
               text := "Hey " +:+ Js.toString name +:+ "! Welcome to itsuki's world!" |} ] |}
    else if String.eqb toolName (multiGreetToolName st) then
      let name := Js.get args "name" in
      let notification :=
        {| method := "notifications/message";
           params := Some {| level := "info";
                             data := "First greet to " +:+ Js.toString name |} |} in
      _ ← send extra notification;
      _ ← sleep 1000;
      let notification :=
        set_data notification ("Second greet to " +:+ Js.toString name) in
      _ ← send extra notification;
      _ ← sleep 1000;
      mret {| content :=
        [ {| type := "text"; text := "Hope you enjoy your day!" |} ] |}
    else throw "Tool not found"
  end.

(** [createErrorResponse(message)]; [uuid] is what [randomUUID()] returns. *)
Definition createErrorResponse (message : string) (uuid : string) : JSONRPCError :=
  {| jsonrpc := "2.0";
     error := {| code := -32000; message := message |};
     id := uuid |}.

Section WithSDK.
Context `{sdk : SDK}.

(** [sendNotification(transport, notification)]: the message handed to
    [transport.send] and whether the send resolved. *)
Definition sendNotification (transport : Transport) (notification : Notification)
  : JSONRPCNotification * bool :=
  let rpcNotificaiton :=
    {| n_jsonrpc := JSON_RPC;
       n_method := method notification;
       n_params := params notification |} in
  (rpcNotificaiton, transport_send transport rpcNotificaiton).

(** [Object.values(this.transports)]: the stored transports.  JavaScript
    lists them in insertion order, the map in key order; nothing below
    depends on the order. *)
Definition Object_values (m : gmap string Transport) : list Transport :=
  (map_to_list m).*2.

(** The [setInterval] callback, run every 5000 ms.  The promise of each
    [sendNotification] is dropped by [forEach]; the result lists, for every
    transport visited, the message sent and whether its send resolved. *)
Definition toolIntervalCallback (st : t)
  : t * list (Transport * (JSONRPCNotification * bool)) :=
  let st := setToolSchema st in
  (st,
   (fun transport =>
      let notification :=
        {| method := "notifications/tools/list_changed"; params := None |} in
      (transport, sendNotification transport notification))
   <$> Object_values (transports st)).

(** [configureTools()] *)
Definition configureTools (st : t) : t :=
  let st := setToolSchema st in
  let st := with_toolInterval st (Some 5000) in
  with_server st (setRequestHandler (server st) CallToolRequestSchema).

(** [new MCPServer(server)] *)
Definition new (srv : Server) : t :=
  configureTools
    {| server := srv;
       transports := ∅;
       toolInterval := None;
       singleGreetToolName := "single-greet";
       multiGreetToolName := "multi-great" |}.

(** [sessionId && this.transports[sessionId]]: what a request's header
    resolves to; [Undefined] stands for any falsy outcome. *)
Definition resolve (st : t) (sessionId : option string) : property :=
  match sessionId with
  | Some sid =>
    if Js.truthy_string sid then get_property (transports st) sid else Undefined
  | None => Undefined
  end.

(** The [onsessioninitialized] callback of a new transport; [sid] is a
    value of [randomUUID()]. *)
Definition onsessioninitialized (st : t) (sid : string) (transport : Transport) : t :=
  with_transports st (<[sid := transport]> (transports st)).

(** The [onclose] callback of a transport. *)
Definition onclose (st : t) (transport : Transport) : t :=
  match sessionId transport with
  | Some sid =>
    if Js.truthy_string sid && property_truthy (get_property (transports st) sid)
    then with_transports st (delete sid (transports st))
    else st
  | None => st
  end.

(** The callbacks a [handleRequest] on an established transport ran. *)
Definition after_handle (st : t) (transport : Transport) (r : HandleResult) : t :=
  if closed r then onclose st transport else st.

Definition invalid_session : string := "Bad Request: invalid session ID or method.".

(** In the three handlers, the [Inherited] case is the call
    [transport.handleRequest(..)] on a value that has no such method: it
    throws a [TypeError] before anything is sent. *)
Definition handleGetRequest (st : t) (req : Request) (uuid : string) : t * Reply :=
  match resolve st (session_header req) with
  | Undefined =>
    (st, Sent 400 (JsonPayload (createErrorResponse invalid_session uuid)))
  | Own transport =>
    let r := transport_handleRequest transport req in
    (after_handle st transport r,
     if thrown r then Rejected else Delegated transport)
  | Inherited => (st, Rejected)
  end.

(** [session_uuid] is what [randomUUID()] returns in [sessionIdGenerator],
    [uuid] what it returns in [createErrorResponse]. *)
Definition handlePostRequest (st : t) (req : Request) (session_uuid uuid : string)
  : t * Reply :=
  let sessionId := session_header req in
  match resolve st sessionId with
  | Own transport =>
    let r := transport_handleRequest transport req in
    (after_handle st transport r,
     if thrown r
     then Sent 500 (JsonPayload (createErrorResponse "Internal server error:" uuid))
     else Delegated transport)
  | Inherited =>
    (st, Sent 500 (JsonPayload (createErrorResponse "Internal server error:" uuid)))
  | Undefined =>
    if negb (Js.truthy_header sessionId) && isInitializeRequest (body req) then
      let transport := {| sessionId := None |} in
      if negb (server_connect (server st) transport) then
        (st, Sent 500 (JsonPayload (createErrorResponse "Internal server error:" uuid)))
      else
        let r := transport_handleRequest transport req in
        let transport :=
          if initialized r then {| sessionId := Some session_uuid |} else transport in
        let st :=
          if initialized r then onsessioninitialized st session_uuid transport else st in
        (after_handle st transport r,
         if thrown r
         then Sent 500 (JsonPayload (createErrorResponse "Internal server error:" uuid))
         else Delegated transport)
    else
      (st, Sent 400 (JsonPayload (createErrorResponse invalid_session uuid)))
  end.

Definition handleDeleteRequest (st : t) (req : Request) : t * Reply :=
  match resolve st (session_header req) with
  | Undefined => (st, Sent 400 (TextPayload "Invalid or missing session ID"))
  | Own transport =>
    let r := transport_handleRequest transport req in
    (after_handle st transport r,
     if thrown r then
       if negb (headersSent r)
       then Sent 500 (TextPayload "Error processing session termination")
       else Delegated transport
     else Delegated transport)
  | Inherited =>
    (st, Sent 500 (TextPayload "Error processing session termination"))
  end.

(** One atomic step of the server between two awaits of the event loop. *)
Inductive step : t -> t -> Prop :=
| step_list st uuid :
    step st (listToolsHandler st uuid).1
| step_interval st :
    step st (toolIntervalCallback st).1
| step_get st req uuid :
    step st (handleGetRequest st req uuid).1
| step_post st req session_uuid uuid :
    step st (handlePostRequest st req session_uuid uuid).1
| step_delete st req :
    step st (handleDeleteRequest st req).1
| step_close st sid transport :
    transports st !! sid = Some transport ->
    step st (onclose st transport).

(** The states a constructed server can be in. *)
Definition reachable (st : t) : Prop :=
  exists srv, rtc step (new srv) st.

End WithSDK.

End MCPServer.

(** ** A reference transport

    An instance of the SDK interface on which the handlers can be run: the
    transport completes the handshake on an initialize POST, closes itself
    (running [onclose]) on a DELETE, and neither throws nor fails a send. *)
Definition initialize_body : Body := "{jsonrpc: 2.0, id: 0, method: initialize}".

Definition reference_sdk : SDK :=
  {| isInitializeRequest := fun b => String.eqb b initialize_body;
     server_connect := fun _ _ => true;
     transport_handleRequest := fun transport req =>
       {| thrown := false;
          headersSent := true;
          initialized :=
            match http_method req, sessionId transport with
            | POST, None => String.eqb (body req) initialize_body
            | _, _ => false
            end;
          closed :=
            match http_method req with
            | DELETE => true
            | _ => false
            end |};
     transport_send := fun _ _ => true |}.

(** A transport whose sends all reject. *)
Definition failing_send_sdk : SDK :=
  {| isInitializeRequest := @isInitializeRequest reference_sdk;
     server_connect := @server_connect reference_sdk;
     transport_handleRequest := @transport_handleRequest reference_sdk;
     transport_send := fun _ _ => false |}.

(** A protocol server with no handler installed yet. *)
Definition empty_server : Server := {| requestHandlers := ∅ |}.

(** A per-request context whose notifications are all delivered. *)
Definition delivering_extra : RequestHandlerExtra :=
  {| extra_sendNotification := fun _ _ => None |}.

Import MCPServer.

(** The tools-changed notification as [sendNotification] hands it to a
    transport. *)
Definition list_changed : JSONRPCNotification :=
  {| n_jsonrpc := "2.0";
     n_method := "notifications/tools/list_changed";
     n_params := None |}.

(** What holds of every state a constructed server reaches: the multi-step
    tool keeps its name, the single-response tool is named by the constructor
    or by a tool-list request, the tool-list handler is installed, and every
    transport is filed under its own session identifier. *)
Record invariant (st : t) : Prop := {
  inv_multi : multiGreetToolName st = "multi-great";
  inv_single :
    singleGreetToolName st = "single-greet" \/
    exists uuid, singleGreetToolName st = "single-greeting-" +:+ uuid;
  inv_list_handler : ListToolsRequestSchema ∈ requestHandlers (server st);
  inv_table :
    forall sid transport,
      transports st !! sid = Some transport -> sessionId transport = Some sid
}.

(** ** Shutdown *)

(** What one [transport.close()] did: whether it ran the [onclose] callback
    installed by [MCPServer] and whether it threw. *)
Record CloseResult := {
  ran_onclose : bool;
  close_thrown : bool
}.

Section Cleanup.
Variable transport_close : Transport -> CloseResult.

(** One turn of [for (const sessionId in this.transports)] in [cleanup()]:
    [await this.transports[sessionId].close()], then
    [delete this.transports[sessionId]], both inside the [try]; a key that
    was deleted before its turn is not visited. *)
Definition cleanup_session (st : t) (sid : string) : t :=
  match transports st !! sid with
  | None => st
  | Some transport =>
    let r := transport_close transport in
    let st := if ran_onclose r then onclose st transport else st in
    if close_thrown r then st
    else with_transports st (delete sid (transports st))
  end.

(** [cleanup()], run to its end without other requests in between: the
    loop over the session table.  Closing the timer and the protocol server,
    which it does besides, changes no field of [MCPServer]. *)
Definition cleanup (st : t) : t :=
  foldl cleanup_session st (map_to_list (transports st)).*1.

End Cleanup.

(** ** The client *)
Module MCPClient.

Record ToolEntry := {
  name : string;
  description : string
}.

(** [toolsResult.tools.map(..)]; the server always sends a description, so
    [tool.description ?? ""] is that description. *)
Definition entries (r : ListToolsResult) : list ToolEntry :=
  (fun tool => {| name := tool_name tool; description := tool_description tool |})
  <$> tools r.

Record t := {
  tools : list ToolEntry
}.

(** [listTools()]: a failed request is logged and leaves [tools] as it was. *)
Definition listTools (c : t) (response : Outcome ListToolsResult) : t :=
  match response with
  | Returned r => {| tools := entries r |}
  | Thrown _ => c
  end.

(** The request [callTool(name)] sends. *)
Definition callTool (name : string) : CallToolRequest :=
  {| req_arguments := Some {["name" := Js.JStr "arjun"]};
     req_name := name |}.

(** The requests of the loop [for (const tool of client.tools)] in [main]. *)
Definition main_calls (c : t) : list CallToolRequest :=
  (fun tool => callTool (name tool)) <$> tools c.

End MCPClient.

(** * Properties *)

(** ** Invariants of the reachable states *)

Lemma invariant_with_transports st m :
  invariant st ->
  (forall sid transport, m !! sid = Some transport -> sessionId transport = Some sid) ->
  invariant (with_transports st m).
Proof. intros [Hm Hs Hl Ht] Hm'. by constructor. Qed.

Lemma invariant_new srv : invariant (new srv).
Proof.
  constructor; cbn.
  - reflexivity.
  - by left.
  - unfold ListToolsRequestSchema. set_solver.
  - intros sid transport H. by rewrite lookup_empty in H.
Qed.

Lemma invariant_onclose st transport :
  invariant st -> invariant (onclose st transport).
Proof.
  intros Hinv. unfold onclose.
  destruct (sessionId transport) as [sid|]; [|done].
  destruct (_ && _); [|done].
  apply invariant_with_transports; [done|].
  intros sid' transport' [_ H]%lookup_delete_Some.
  by apply (inv_table _ Hinv).
Qed.

Section Invariants.
Context `{sdk : SDK}.

Lemma invariant_after_handle st transport r :
  invariant st -> invariant (after_handle st transport r).
Proof.
  intros Hinv. unfold after_handle.
  destruct (closed r); [by apply invariant_onclose | done].
Qed.

Lemma invariant_step st st' : step st st' -> invariant st -> invariant st'.
Proof.
  intros Hstep Hinv. destruct Hstep as [st uuid|st|st req uuid|st req su uuid|st req|st sid tr _].
  - destruct Hinv as [Hm Hs Hl Ht]. constructor; cbn; [exact Hm | | exact Hl | exact Ht].
    right. by exists uuid.
  - destruct Hinv as [Hm Hs Hl Ht]. constructor; cbn; [exact Hm | exact Hs | | exact Ht].
    apply elem_of_union. by right.
  - unfold handleGetRequest. destruct (resolve _ _); cbn; [|done|done].
    by apply invariant_after_handle.
  - unfold handlePostRequest. destruct (resolve _ _); cbn; [|done|].
    { by apply invariant_after_handle. }
    destruct (_ && _); [|done].
    destruct (negb _); [done|]. cbn.
    apply invariant_after_handle.
    destruct (initialized _); [|done].
    apply invariant_with_transports; [done|].
    intros sid transport [[<- <-]|[_ H]]%lookup_insert_Some; [done|].
    by apply (inv_table _ Hinv).
  - unfold handleDeleteRequest. destruct (resolve _ _); cbn; [|done|done].
    by apply invariant_after_handle.
  - by apply invariant_onclose.
Qed.

Lemma reachable_invariant st : reachable st -> invariant st.
Proof.
  intros [srv Hrtc]. generalize (invariant_new srv).
  induction Hrtc as [|st1 st2 st3 Hstep _ IH]; [done|].
  intros Hinv. apply IH. by eapply invariant_step.
Qed.

Lemma reachable_new srv : reachable (new srv).
Proof. by exists srv. Qed.

End Invariants.

(** ** The tool names of a reachable server *)

Lemma multi_is_not_single st :
  invariant st ->
  String.eqb (multiGreetToolName st) (singleGreetToolName st) = false.
Proof.
  intros [Hm Hs _ _]. rewrite Hm.
  destruct Hs as [-> | [uuid ->]]; reflexivity.
Qed.

Lemma single_name_truthy st :
  invariant st -> Js.truthy_string (singleGreetToolName st) = true.
Proof. intros [_ Hs _ _]. destruct Hs as [-> | [uuid ->]]; reflexivity. Qed.

Lemma multi_name_truthy st :
  invariant st -> Js.truthy_string (multiGreetToolName st) = true.
Proof. intros [Hm _ _ _]. by rewrite Hm. Qed.

(** The single-greet branch, whatever the context and the trace so far. *)
Lemma single_greet_run st extra args tr :
  invariant st ->
  callToolHandler st extra
    {| req_arguments := Some args; req_name := singleGreetToolName st |} tr =
  (tr,
   if Js.truthy (Js.get args "name")
   then Returned {| content :=
          [ {| type := "text";
               text := "Hey " +:+ Js.toString (Js.get args "name")
                       +:+ "! Welcome to itsuki's world!" |} ] |}
   else Thrown "Name to greet undefined.").
Proof.
  intros Hinv. unfold callToolHandler; cbn.
  rewrite (single_name_truthy _ Hinv), String.eqb_refl; cbn.
  by destruct (Js.truthy _).
Qed.

(** The multi-greet branch when both notifications are delivered. *)
Lemma multi_greet_run st extra args :
  invariant st ->
  (forall tr m, extra_sendNotification extra tr m = None) ->
  let first :=
    {| method := "notifications/message";
       params := Some {| level := "info";
                         data := "First greet to " +:+ Js.toString (Js.get args "name") |} |} in
  let second :=
    {| method := "notifications/message";
       params := Some {| level := "info";
                         data := "Second greet to " +:+ Js.toString (Js.get args "name") |} |} in
  callToolHandler st extra
    {| req_arguments := Some args; req_name := multiGreetToolName st |} [] =
  ([Notified first; Slept 1000; Notified second; Slept 1000],
   Returned {| content := [ {| type := "text"; text := "Hope you enjoy your day!" |} ] |}).
Proof.
  intros Hinv Hsend. unfold callToolHandler; cbn.
  rewrite (multi_name_truthy _ Hinv), (multi_is_not_single _ Hinv), String.eqb_refl; cbn.
  unfold mbind, Async_bind, bind, send, sleep. by rewrite !Hsend.
Qed.

(** ** Tool calls *)

(** C4: on a reachable server, a call of the multi-step tool with arguments
    [{name: n}] whose notifications are delivered shows the caller's session
    exactly: the notification "First greet to n", then the notification
    "Second greet to n", then one terminal result, in this order. *)
Theorem multi_greet_ordered_trace `{sdk : SDK} st extra
    (args : gmap string Js.value) (n : string) :
  reachable st ->
  args !! "name" = Some (Js.JStr n) ->
  (forall tr m, extra_sendNotification extra tr m = None) ->
  let first :=
    {| method := "notifications/message";
       params := Some {| level := "info"; data := "First greet to " +:+ n |} |} in
  let second :=
    {| method := "notifications/message";
       params := Some {| level := "info"; data := "Second greet to " +:+ n |} |} in
  let final :=
    {| content := [ {| type := "text"; text := "Hope you enjoy your day!" |} ] |} in
  let run :=
    callToolHandler st extra
      {| req_arguments := Some args; req_name := multiGreetToolName st |} [] in
  run = ([Notified first; Slept 1000; Notified second; Slept 1000], Returned final) /\
  session_messages run =
    [NotificationMessage first; NotificationMessage second; ResultMessage final].
Proof.
  intros Hreach Hname Hsend. cbv zeta.
  rewrite (multi_greet_run st extra args (reachable_invariant _ Hreach) Hsend).
  unfold Js.get. rewrite Hname. split; reflexivity.
Qed.

Lemma multi_greet_ordered_trace_witness :
  @reachable reference_sdk (new empty_server) /\
  ({["name" := Js.JStr "arjun"]} : gmap string Js.value) !! "name"
    = Some (Js.JStr "arjun") /\
  (forall tr m, extra_sendNotification delivering_extra tr m = None) /\
  session_messages
    (callToolHandler (new empty_server) delivering_extra
       {| req_arguments := Some {["name" := Js.JStr "arjun"]};
          req_name := "multi-great" |} []) =
  [ NotificationMessage
      {| method := "notifications/message";
         params := Some {| level := "info"; data := "First greet to arjun" |} |};
    NotificationMessage
      {| method := "notifications/message";
         params := Some {| level := "info"; data := "Second greet to arjun" |} |};
    ResultMessage
      {| content := [ {| type := "text"; text := "Hope you enjoy your day!" |} ] |} ].
Proof.
  split; [apply reachable_new|].
  split; [apply lookup_singleton_eq|].
  split; [reflexivity|].
  apply (@multi_greet_ordered_trace reference_sdk (new empty_server) delivering_extra
           {["name" := Js.JStr "arjun"]} "arjun").
  - apply reachable_new.
  - apply lookup_singleton_eq.
  - reflexivity.
Defined.




(** C9: on a reachable server, for every arguments object that lacks [name],
    the single-response tool throws "Name to greet undefined." (nothing is
    sent), while the multi-step tool does not check the name: with its
    notifications delivered it sends "First greet to undefined", then "Second
    greet to undefined", then its terminal result. *)
Theorem name_validation_differs `{sdk : SDK} st extra
    (args : gmap string Js.value) :
  reachable st ->
  args !! "name" = None ->
  callToolHandler st extra
    {| req_arguments := Some args; req_name := singleGreetToolName st |} [] =
  ([], Thrown "Name to greet undefined.") /\
  ((forall tr m, extra_sendNotification extra tr m = None) ->
   session_messages
     (callToolHandler st extra
        {| req_arguments := Some args; req_name := multiGreetToolName st |} []) =
   [ NotificationMessage
       {| method := "notifications/message";
          params := Some {| level := "info"; data := "First greet to undefined" |} |};
     NotificationMessage
       {| method := "notifications/message";
          params := Some {| level := "info"; data := "Second greet to undefined" |} |};
     ResultMessage
       {| content := [ {| type := "text"; text := "Hope you enjoy your day!" |} ] |} ]).
Proof.
  intros Hreach Hname.
  pose proof (reachable_invariant _ Hreach) as Hinv. split.
  - rewrite (single_greet_run _ _ _ _ Hinv). unfold Js.get. by rewrite Hname.
  - intros Hsend. rewrite (multi_greet_run st extra args Hinv Hsend).
    unfold Js.get. rewrite Hname. reflexivity.
Qed.

Lemma name_validation_differs_witness :
  @reachable reference_sdk (new empty_server) /\
  (∅ : gmap string Js.value) !! "name" = None /\
  callToolHandler (new empty_server) delivering_extra
    {| req_arguments := Some ∅; req_name := "single-greet" |} [] =
  ([], Thrown "Name to greet undefined.") /\
  session_messages
    (callToolHandler (new empty_server) delivering_extra
       {| req_arguments := Some ∅; req_name := "multi-great" |} []) =
  [ NotificationMessage
      {| method := "notifications/message";
         params := Some {| level := "info"; data := "First greet to undefined" |} |};
    NotificationMessage
      {| method := "notifications/message";
         params := Some {| level := "info"; data := "Second greet to undefined" |} |};
    ResultMessage
      {| content := [ {| type := "text"; text := "Hope you enjoy your day!" |} ] |} ].
Proof.
  split; [apply reachable_new|].
  split; [apply lookup_empty|].
  destruct (@name_validation_differs reference_sdk (new empty_server) delivering_extra ∅)
    as [Hsingle Hmulti]; [apply reachable_new | apply lookup_empty |].
  split; [exact Hsingle|].
  apply Hmulti. reflexivity.
Defined.

(** ** Session dispatch *)

Lemma get_property_Undefined (m : gmap string Transport) key :
  get_property m key = Undefined <->
  m !! key = None /\ key ∉ Object_prototype_members.
Proof.
  unfold get_property. destruct (m !! key) as [transport|].
  { split; [done | by intros [? _]]. }
  destruct (existsb _ _) eqn:Hmem.
  - apply existsb_exists in Hmem as (member & Hin & ->%String.eqb_eq).
    split; [done|]. intros [_ Hnot]. exfalso. by apply Hnot, list_elem_of_In.
  - split; [|done]. intros _. split; [done|].
    intros Hin%list_elem_of_In.
    assert (existsb (String.eqb key) Object_prototype_members = true) as Hyes
      by (apply existsb_exists; exists key; by rewrite String.eqb_refl).
    congruence.
Qed.

Lemma truthy_string_nonempty (s : string) :
  Js.truthy_string s = true <-> s <> "".
Proof. destruct s; cbn; split; done. Qed.

Lemma resolve_unknown st sid :
  sid <> "" ->
  transports st !! sid = None ->
  sid ∉ Object_prototype_members ->
  resolve st (Some sid) = Undefined.
Proof.
  intros Hne%truthy_string_nonempty Hlook Hmem. cbn. rewrite Hne.
  by apply get_property_Undefined.
Qed.

Lemma resolve_falsy st h : Js.truthy_header h = false -> resolve st h = Undefined.
Proof. destruct h as [sid|]; cbn; [|done]. by intros ->. Qed.

(** C1: an unknown session identifier is not always rejected.  On a server
    with no session at all, the identifier "constructor" passes the guard
    [sessionId && this.transports[sessionId]], because the lookup finds the
    member every object inherits; the call of [handleRequest] on it throws,
    so POST answers status 500 "Internal server error:" instead of the 400
    invalid-session error, and the promise of the GET handler rejects
    without any response. *)
Theorem inherited_name_passes_session_guard `{sdk : SDK}
    (b : Body) session_uuid uuid :
  transports (new empty_server) !! "constructor" = None /\
  handlePostRequest (new empty_server)
    {| http_method := POST; session_header := Some "constructor"; body := b |}
    session_uuid uuid =
  (new empty_server,
   Sent 500 (JsonPayload
     {| jsonrpc := "2.0";
        error := {| code := -32000; message := "Internal server error:" |};
        id := uuid |})) /\
  handleGetRequest (new empty_server)
    {| http_method := GET; session_header := Some "constructor"; body := b |} uuid =
  (new empty_server, Rejected).
Proof. split; [apply lookup_empty|]. split; reflexivity. Qed.

(** X1: a POST that either carries no session
    identifier (no header, or an empty one, which the handler does not tell
    apart) and is not an initialization message, or carries a non-empty
    identifier that is neither stored in the session table nor the name of
    an inherited member, is answered with status 400 and the JSON-RPC error
    "Bad Request: invalid session ID or method.", and the server is left as
    it was; so is such a GET. *)
Theorem invalid_session_is_rejected `{sdk : SDK} st req session_uuid uuid :
  ((Js.truthy_header (session_header req) = false /\
    isInitializeRequest (body req) = false) \/
   (exists sid, session_header req = Some sid /\ sid <> "" /\
                transports st !! sid = None /\
                sid ∉ Object_prototype_members) ->
   handlePostRequest st req session_uuid uuid =
   (st, Sent 400 (JsonPayload
      {| jsonrpc := "2.0";
         error := {| code := -32000;
                     message := "Bad Request: invalid session ID or method." |};
         id := uuid |}))) /\
  (session_header req = None \/
   (exists sid, session_header req = Some sid /\
                transports st !! sid = None /\
                sid ∉ Object_prototype_members) ->
   handleGetRequest st req uuid =
   (st, Sent 400 (JsonPayload
      {| jsonrpc := "2.0";
         error := {| code := -32000;
                     message := "Bad Request: invalid session ID or method." |};
         id := uuid |}))).
Proof.
  split.
  - intros H. unfold handlePostRequest.
    destruct H as [[Hno Hinit]|(sid & Hsid & Hne & Hlook & Hmem)].
    + by rewrite (resolve_falsy _ _ Hno), Hno, Hinit.
    + rewrite Hsid, (resolve_unknown _ _ Hne Hlook Hmem). cbn.
      apply truthy_string_nonempty in Hne. by rewrite Hne.
  - intros H. unfold handleGetRequest.
    destruct H as [->|(sid & -> & Hlook & Hmem)]; [done|].
    destruct (decide (sid = "")) as [->|Hne]; [done|].
    by rewrite (resolve_unknown _ _ Hne Hlook Hmem).
Qed.

Lemma invalid_session_is_rejected_witness :
  let st := new empty_server in
  let req := {| http_method := POST;
                session_header := Some "6f1c2a54-0000-4000-8000-000000000001";
                body := "{jsonrpc: 2.0, id: 7, method: tools/list}" |} in
  transports st !! "6f1c2a54-0000-4000-8000-000000000001" = None /\
  ("6f1c2a54-0000-4000-8000-000000000001" ∉ Object_prototype_members) /\
  @handlePostRequest reference_sdk st req "s" "e" =
  (st, Sent 400 (JsonPayload
     {| jsonrpc := "2.0";
        error := {| code := -32000;
                    message := "Bad Request: invalid session ID or method." |};
        id := "e" |})) /\
  @handleGetRequest reference_sdk st req "e" =
  (st, Sent 400 (JsonPayload
     {| jsonrpc := "2.0";
        error := {| code := -32000;
                    message := "Bad Request: invalid session ID or method." |};
        id := "e" |})).
Proof.
  cbv zeta.
  assert (Hmem : "6f1c2a54-0000-4000-8000-000000000001" ∉ Object_prototype_members).
  { intros Hin%list_elem_of_In. cbn in Hin. intuition discriminate. }
  split; [apply lookup_empty|]. split; [exact Hmem|].
  destruct (@invalid_session_is_rejected reference_sdk (new empty_server)
              {| http_method := POST;
                 session_header := Some "6f1c2a54-0000-4000-8000-000000000001";
                 body := "{jsonrpc: 2.0, id: 7, method: tools/list}" |} "s" "e")
    as [Hpost Hget].
  split.
  - apply Hpost. right. eexists. split; [reflexivity|]. split; [discriminate|].
    split; [apply lookup_empty | exact Hmem].
  - apply Hget. right. eexists. split; [reflexivity|].
    split; [apply lookup_empty | exact Hmem].
Defined.

(** An initialization message that comes with an empty identifier header is
    not rejected either: the handler takes the header for absent and opens a
    new session. *)
Lemma empty_session_header_initializes :
  let req := {| http_method := POST;
                session_header := Some "";
                body := initialize_body |} in
  @handlePostRequest reference_sdk (new empty_server) req "s1" "e" =
  (onsessioninitialized (new empty_server) "s1" {| sessionId := Some "s1" |},
   Delegated {| sessionId := Some "s1" |}).
Proof. reflexivity. Qed.

(** ** Termination *)

Lemma onclose_removes st sid transport :
  sessionId transport = Some sid ->
  sid <> "" ->
  transports (onclose st transport) !! sid = None.
Proof.
  intros Hsid Hne%truthy_string_nonempty. unfold onclose. rewrite Hsid, Hne. cbn.
  destruct (property_truthy _) eqn:Hguard; cbn.
  - apply lookup_delete_eq.
  - unfold get_property in Hguard.
    destruct (transports st !! sid); [done|done].
Qed.

(** X2: closing one session leaves every other entry of the session table
    as it was. *)
Theorem onclose_keeps_other_sessions st transport (other : string) :
  sessionId transport <> Some other ->
  transports (onclose st transport) !! other = transports st !! other.
Proof.
  intros Hother. unfold onclose.
  destruct (sessionId transport) as [sid|]; [|done].
  destruct (_ && _); [|done]. cbn.
  apply lookup_delete_ne. congruence.
Qed.

Lemma onclose_keeps_other_sessions_witness :
  let a := {| sessionId := Some "session-a" |} in
  let b := {| sessionId := Some "session-b" |} in
  let st := with_transports (new empty_server)
              (<["session-a" := a]> (<["session-b" := b]> ∅)) in
  sessionId a <> Some "session-b" /\
  transports (onclose st a) !! "session-a" = None /\
  transports (onclose st a) !! "session-b" = Some b.
Proof.
  cbv zeta. split; [discriminate|]. split; [vm_compute; reflexivity|].
  rewrite (onclose_keeps_other_sessions _ {| sessionId := Some "session-a" |}
             "session-b"); [|discriminate].
  vm_compute; reflexivity.
Defined.

(** C2, as stated, fails: once a DELETE has closed session s1, a second
    DELETE for s1 is answered with the error status 400. *)
Lemma second_terminate_counterexample :
  let st := (@handlePostRequest reference_sdk (new empty_server)
               {| http_method := POST; session_header := None;
                  body := initialize_body |} "s1" "e0").1 in
  let req := {| http_method := DELETE; session_header := Some "s1"; body := "" |} in
  let first := @handleDeleteRequest reference_sdk st req in
  let second := @handleDeleteRequest reference_sdk first.1 req in
  transports st !! "s1" = Some {| sessionId := Some "s1" |} /\
  first.2 = Delegated {| sessionId := Some "s1" |} /\
  second.2 = Sent 400 (TextPayload "Invalid or missing session ID").
Proof. cbv zeta. split; [|split]; vm_compute; reflexivity. Qed.

(** C2 (amended): on a reachable server, the first DELETE for a live session
    S (a session identifier as [randomUUID()] makes them: not empty, and not
    the name of an inherited member) is left to S's transport and, the
    transport closing as it does for a DELETE, removes S from the session
    table; a second DELETE for S is answered with status 400 and the text
    "Invalid or missing session ID", changes nothing, and S stays absent. *)
Theorem terminate_twice `{sdk : SDK} st req sid transport :
  reachable st ->
  session_header req = Some sid ->
  sid <> "" ->
  sid ∉ Object_prototype_members ->
  transports st !! sid = Some transport ->
  thrown (transport_handleRequest transport req) = false ->
  closed (transport_handleRequest transport req) = true ->
  let first := handleDeleteRequest st req in
  let second := handleDeleteRequest first.1 req in
  first.2 = Delegated transport /\
  transports first.1 !! sid = None /\
  second = (first.1, Sent 400 (TextPayload "Invalid or missing session ID")).
Proof.
  intros Hreach Hhdr Hne Hmem Hlook Hthrown Hclosed first second.
  pose proof (inv_table _ (reachable_invariant _ Hreach) _ _ Hlook) as Hsid.
  assert (Hfirst : first = (onclose st transport, Delegated transport)).
  { subst first. unfold handleDeleteRequest, resolve, after_handle, get_property.
    apply truthy_string_nonempty in Hne.
    by rewrite Hhdr, Hne, Hlook, Hthrown, Hclosed. }
  assert (Hgone : transports first.1 !! sid = None).
  { rewrite Hfirst. by apply onclose_removes. }
  split; [by rewrite Hfirst|]. split; [exact Hgone|].
  subst second. unfold handleDeleteRequest.
  by rewrite Hhdr, (resolve_unknown _ _ Hne Hgone Hmem).
Qed.

Lemma terminate_twice_witness :
  let st := (@handlePostRequest reference_sdk (new empty_server)
               {| http_method := POST; session_header := None;
                  body := initialize_body |} "s1" "e0").1 in
  let req := {| http_method := DELETE; session_header := Some "s1"; body := "" |} in
  let first := @handleDeleteRequest reference_sdk st req in
  let second := @handleDeleteRequest reference_sdk first.1 req in
  @reachable reference_sdk st /\
  ("s1" ∉ Object_prototype_members) /\
  transports st !! "s1" = Some {| sessionId := Some "s1" |} /\
  first.2 = Delegated {| sessionId := Some "s1" |} /\
  transports first.1 !! "s1" = None /\
  second = (first.1, Sent 400 (TextPayload "Invalid or missing session ID")).
Proof.
  cbv zeta.
  assert (Hreach : @reachable reference_sdk
            (@handlePostRequest reference_sdk (new empty_server)
               {| http_method := POST; session_header := None;
                  body := initialize_body |} "s1" "e0").1).
  { exists empty_server. eapply rtc_l; [apply step_post | apply rtc_refl]. }
  assert (Hmem : "s1" ∉ Object_prototype_members).
  { intros Hin%list_elem_of_In. cbn in Hin. intuition discriminate. }
  split; [exact Hreach|]. split; [exact Hmem|].
  split; [vm_compute; reflexivity|].
  apply (@terminate_twice reference_sdk _
           {| http_method := DELETE; session_header := Some "s1"; body := "" |}
           "s1" {| sessionId := Some "s1" |}).
  - exact Hreach.
  - reflexivity.
  - discriminate.
  - exact Hmem.
  - vm_compute; reflexivity.
  - reflexivity.
  - reflexivity.
Defined.

(** C8: the terminate path reports its failures as plain text.  A DELETE
    without a session header is answered with status 400 and the text body
    "Invalid or missing session ID"; a DELETE whose transport throws before
    any header is sent with status 500 and "Error processing session
    termination".  Neither is a JSON-RPC error object, unlike what GET
    sends when the same check fails. *)
Theorem delete_failures_are_plain_text `{sdk : SDK} st (b : Body) uuid :
  let req := {| http_method := DELETE; session_header := None; body := b |} in
  handleDeleteRequest st req =
    (st, Sent 400 (TextPayload "Invalid or missing session ID")) /\
  handleGetRequest st {| http_method := GET; session_header := None; body := b |} uuid =
    (st, Sent 400 (JsonPayload
       (createErrorResponse "Bad Request: invalid session ID or method." uuid))) /\
  (forall req' transport,
     resolve st (session_header req') = Own transport ->
     thrown (transport_handleRequest transport req') = true ->
     headersSent (transport_handleRequest transport req') = false ->
     (handleDeleteRequest st req').2 =
       Sent 500 (TextPayload "Error processing session termination")).
Proof.
  cbv zeta. split; [reflexivity|]. split; [reflexivity|].
  intros req' transport Hres Hthrown Hsent.
  unfold handleDeleteRequest. rewrite Hres. cbn. by rewrite Hthrown, Hsent.
Qed.

(** ** Error responses *)

Lemma createErrorResponse_injective message uuid1 uuid2 :
  createErrorResponse message uuid1 = createErrorResponse message uuid2 ->
  uuid1 = uuid2.
Proof. by intros [= ->]. Qed.

(** Every JSON body POST sends is an error response built from the UUID drawn
    for it, with a message and a status that do not depend on that UUID. *)
Lemma post_json_reply `{sdk : SDK} st req session_uuid uuid status e :
  (handlePostRequest st req session_uuid uuid).2 = Sent status (JsonPayload e) ->
  exists message,
    e = createErrorResponse message uuid /\
    forall uuid',
      (handlePostRequest st req session_uuid uuid').2 =
      Sent status (JsonPayload (createErrorResponse message uuid')).
Proof.
  unfold handlePostRequest.
  destruct (resolve st (session_header req)) as [transport| |]; cbn.
  - destruct (thrown _); [|done]. intros [= <- <-]. by eexists.
  - intros [= <- <-]. by eexists.
  - destruct (_ && _); cbn.
    + destruct (negb _); cbn.
      * intros [= <- <-]. by eexists.
      * destruct (thrown _); [|done]. intros [= <- <-]. by eexists.
    + intros [= <- <-]. by eexists.
Qed.

Lemma get_json_reply `{sdk : SDK} st req uuid status e :
  (handleGetRequest st req uuid).2 = Sent status (JsonPayload e) ->
  exists message,
    e = createErrorResponse message uuid /\
    forall uuid',
      (handleGetRequest st req uuid').2 =
      Sent status (JsonPayload (createErrorResponse message uuid')).
Proof.
  unfold handleGetRequest.
  destruct (resolve st (session_header req)) as [transport| |]; cbn.
  - by destruct (thrown _).
  - done.
  - intros [= <- <-]. by eexists.
Qed.

(** C10: every JSON-RPC error the server builds has code -32000 and takes its
    [id] from the random UUID drawn when it is built, not from the request;
    so answering the same failing request on the same server with two
    different draws gives two error responses that differ in [id]. *)
Theorem error_id_is_the_drawn_uuid `{sdk : SDK} st req session_uuid
    (uuid1 uuid2 : string) :
  uuid1 <> uuid2 ->
  (forall message,
     code (error (createErrorResponse message uuid1)) = -32000 /\
     id (createErrorResponse message uuid1) = uuid1 /\
     createErrorResponse message uuid1 <> createErrorResponse message uuid2) /\
  (forall status e,
     (handlePostRequest st req session_uuid uuid1).2 = Sent status (JsonPayload e) ->
     code (error e) = -32000 /\ id e = uuid1 /\
     exists e',
       (handlePostRequest st req session_uuid uuid2).2 = Sent status (JsonPayload e') /\
       id e' = uuid2 /\ id e' <> id e) /\
  (forall status e,
     (handleGetRequest st req uuid1).2 = Sent status (JsonPayload e) ->
     code (error e) = -32000 /\ id e = uuid1 /\
     exists e',
       (handleGetRequest st req uuid2).2 = Sent status (JsonPayload e') /\
       id e' = uuid2 /\ id e' <> id e).
Proof.
  intros Hne. split; [|split].
  - intros message. split; [done|]. split; [done|].
    intros Heq. by apply Hne, (createErrorResponse_injective message).
  - intros status e (message & -> & Hany)%post_json_reply.
    split; [done|]. split; [done|].
    eexists. split; [apply Hany|]. split; [done|]. cbn. congruence.
  - intros status e (message & -> & Hany)%get_json_reply.
    split; [done|]. split; [done|].
    eexists. split; [apply Hany|]. split; [done|]. cbn. congruence.
Qed.

Lemma error_id_is_the_drawn_uuid_witness :
  let req := {| http_method := POST; session_header := None;
                body := "{jsonrpc: 2.0, id: 7, method: tools/list}" |} in
  let uuid1 := "9b2d7c1e-0000-4000-8000-00000000000a" in
  let uuid2 := "9b2d7c1e-0000-4000-8000-00000000000b" in
  uuid1 <> uuid2 /\
  (@handlePostRequest reference_sdk (new empty_server) req "s" uuid1).2 =
    Sent 400 (JsonPayload
      {| jsonrpc := "2.0";
         error := {| code := -32000;
                     message := "Bad Request: invalid session ID or method." |};
         id := uuid1 |}) /\
  exists e',
    (@handlePostRequest reference_sdk (new empty_server) req "s" uuid2).2 =
      Sent 400 (JsonPayload e') /\
    id e' = uuid2 /\ id e' <> uuid1.
Proof.
  cbv zeta.
  split; [discriminate|].
  split; [reflexivity|].
  destruct (@error_id_is_the_drawn_uuid reference_sdk (new empty_server)
              {| http_method := POST; session_header := None;
                 body := "{jsonrpc: 2.0, id: 7, method: tools/list}" |} "s"
              "9b2d7c1e-0000-4000-8000-00000000000a"
              "9b2d7c1e-0000-4000-8000-00000000000b")
    as (_ & Hpost & _); [discriminate|].
  destruct (Hpost 400 _ eq_refl) as (_ & _ & e' & Hrun & Hid & Hdiff).
  exists e'. split; [exact Hrun|]. split; [exact Hid|]. exact Hdiff.
Defined.

(** ** The periodic rotation and its broadcast *)




(** Two sessions whose sends both fail: each is still sent the notification. *)
Example broadcast_with_failing_sends :
  let a := {| sessionId := Some "session-a" |} in
  let b := {| sessionId := Some "session-b" |} in
  let st := with_transports (new empty_server)
              (<["session-a" := a]> (<["session-b" := b]> ∅)) in
  let sends := (@toolIntervalCallback failing_send_sdk st).2 in
  length sends = 2%nat /\
  (a, (list_changed, false)) ∈ sends /\
  (b, (list_changed, false)) ∈ sends.
Proof.
  cbv zeta. split; [reflexivity|].
  split; apply list_elem_of_In; vm_compute; tauto.
Qed.

Lemma setToolSchema_installed st :
  ListToolsRequestSchema ∈ requestHandlers (server st) -> setToolSchema st = st.
Proof.
  intros Hin. destruct st as [[handlers] ? ? ? ?]. cbn in *.
  unfold setToolSchema, with_server, setRequestHandler. cbn.
  do 2 f_equal. by apply subseteq_union_1_L, singleton_subseteq_l.
Qed.

(** C7, as stated, fails: the server holds no version counter.  The rotation
    leaves a freshly built server exactly as it was, so no number read off
    the server is larger after it. *)
Lemma rotation_version_counterexample :
  (@toolIntervalCallback reference_sdk (new empty_server)).1 = new empty_server /\
  forall version : t -> nat,
    version (@toolIntervalCallback reference_sdk (new empty_server)).1 =
    version (new empty_server).
Proof.
  assert (H : (@toolIntervalCallback reference_sdk (new empty_server)).1
              = new empty_server).
  { apply setToolSchema_installed, (inv_list_handler _ (invariant_new _)). }
  split; [exact H|]. intros version. by rewrite H.
Qed.

(** C7 (amended): the server keeps no version counter for its tools.  On a
    reachable server the periodic rotation re-installs the tool-list handler
    and broadcasts; the timer's period (the server's only number), the
    session table and the set of installed handlers are the same after it,
    so a rotation increments nothing. *)
Theorem rotation_increments_no_counter `{sdk : SDK} st :
  reachable st ->
  toolInterval (toolIntervalCallback st).1 = toolInterval st /\
  transports (toolIntervalCallback st).1 = transports st /\
  server (toolIntervalCallback st).1 = server st.
Proof.
  intros Hreach.
  change (toolIntervalCallback st).1 with (setToolSchema st).
  by rewrite (setToolSchema_installed st
                (inv_list_handler _ (reachable_invariant _ Hreach))).
Qed.

Lemma rotation_increments_no_counter_witness :
  @reachable reference_sdk (new empty_server) /\
  toolInterval (@toolIntervalCallback reference_sdk (new empty_server)).1 = Some 5000 /\
  transports (@toolIntervalCallback reference_sdk (new empty_server)).1 = ∅ /\
  server (@toolIntervalCallback reference_sdk (new empty_server)).1
    = server (new empty_server).
Proof.
  split; [apply reachable_new|].
  apply (@rotation_increments_no_counter reference_sdk (new empty_server)).
  apply reachable_new.
Defined.

(** ** Tool listing *)

(** C3: serving a tool-list request is not free of effects.  The handler
    first overwrites [singleGreetToolName] with a name made from a fresh UUID
    and lists that new name: on a freshly built server the single-response
    tool, named "single-greet" before the request, is named
    "single-greeting-<uuid>" after it. *)
Theorem list_tools_renames_single_greet (st : t) (uuid : string) :
  singleGreetToolName (listToolsHandler st uuid).1 = "single-greeting-" +:+ uuid /\
  tool_name <$> tools (listToolsHandler st uuid).2 =
    ["single-greeting-" +:+ uuid; multiGreetToolName st] /\
  singleGreetToolName (new empty_server) = "single-greet" /\
  singleGreetToolName
    (listToolsHandler (new empty_server) "3f0e8a62-0000-4000-8000-000000000001").1 =
    "single-greeting-3f0e8a62-0000-4000-8000-000000000001" /\
  (listToolsHandler (new empty_server) "3f0e8a62-0000-4000-8000-000000000001").1
    <> new empty_server.
Proof.
  repeat split. intros H. apply (f_equal singleGreetToolName) in H. discriminate H.
Qed.

(** ** The session table under the verb handlers *)

Lemma with_transports_same st : with_transports st (transports st) = st.
Proof. by destruct st. Qed.

Lemma onclose_shrinks st transport sid stored :
  transports (onclose st transport) !! sid = Some stored ->
  transports st !! sid = Some stored.
Proof.
  unfold onclose. destruct (sessionId transport) as [closing|]; [|done].
  destruct (_ && _); [|done]. cbn.
  by intros [_ H]%lookup_delete_Some.
Qed.

Lemma after_handle_shrinks `{sdk : SDK} st transport r sid stored :
  transports (after_handle st transport r) !! sid = Some stored ->
  transports st !! sid = Some stored.
Proof.
  unfold after_handle. destruct (closed r); [apply onclose_shrinks | done].
Qed.

Lemma onclose_frame st transport :
  server (onclose st transport) = server st /\
  toolInterval (onclose st transport) = toolInterval st /\
  singleGreetToolName (onclose st transport) = singleGreetToolName st /\
  multiGreetToolName (onclose st transport) = multiGreetToolName st.
Proof.
  unfold onclose. destruct (sessionId transport) as [sid|]; [|done].
  by destruct (_ && _).
Qed.

(** X3: a second close signal for the same transport does nothing: running
    the [onclose] hook twice leaves the server as one run does. *)
Theorem onclose_idempotent st transport :
  onclose (onclose st transport) transport = onclose st transport.
Proof.
  unfold onclose at 1. destruct (sessionId transport) as [sid|] eqn:Hsid; [|done].
  destruct (Js.truthy_string sid && _) eqn:Houter; [|done].
  apply andb_true_iff in Houter as [Htruthy _].
  assert (Hgone : transports (onclose st transport) !! sid = None).
  { unfold onclose. rewrite Hsid, Htruthy. cbn.
    destruct (property_truthy _) eqn:Hguard; cbn.
    - apply lookup_delete_eq.
    - unfold get_property in Hguard. by destruct (transports st !! sid). }
  rewrite delete_id by done. apply with_transports_same.
Qed.




(** X5: a request adds a session to the table only by initializing one.  A
    session found in the table after a POST was there before it, or is the
    new transport filed under the identifier just generated, and then the
    request carried no identifier, was an initialization message, and the
    transport completed the handshake; a GET or a DELETE adds none. *)
Theorem only_initialize_adds_a_session `{sdk : SDK} st req session_uuid uuid
    sid stored :
  (transports (handlePostRequest st req session_uuid uuid).1 !! sid = Some stored ->
   transports st !! sid = Some stored \/
   (sid = session_uuid /\ stored = {| sessionId := Some session_uuid |} /\
    Js.truthy_header (session_header req) = false /\
    isInitializeRequest (body req) = true /\
    initialized (transport_handleRequest {| sessionId := None |} req) = true)) /\
  (transports (handleGetRequest st req uuid).1 !! sid = Some stored ->
   transports st !! sid = Some stored) /\
  (transports (handleDeleteRequest st req).1 !! sid = Some stored ->
   transports st !! sid = Some stored).
Proof.
  split; [|split].
  - unfold handlePostRequest. destruct (resolve _ _); cbn; [|by left|].
    { intros H%after_handle_shrinks. by left. }
    destruct (negb (Js.truthy_header _)) eqn:Hhdr; cbn; [|by left].
    destruct (isInitializeRequest _) eqn:Hinit; cbn; [|by left].
    destruct (negb (server_connect _ _)); cbn; [intros H; by left|].
    intros H%after_handle_shrinks.
    destruct (initialized _) eqn:Hdone; [|by left].
    cbn in H. apply lookup_insert_Some in H as [[<- <-]|[_ H]]; [|by left].
    right. apply negb_true_iff in Hhdr. done.
  - unfold handleGetRequest. destruct (resolve _ _); cbn; [|done|done].
    apply after_handle_shrinks.
  - unfold handleDeleteRequest. destruct (resolve _ _); cbn; [|done|done].
    apply after_handle_shrinks.
Qed.

Lemma only_initialize_adds_a_session_witness :
  let req := {| http_method := POST; session_header := None;
                body := initialize_body |} in
  transports (@handlePostRequest reference_sdk (new empty_server) req "s1" "e0").1
    !! "s1" = Some {| sessionId := Some "s1" |} /\
  (transports (new empty_server) !! "s1" = Some {| sessionId := Some "s1" |} \/
   ("s1" = "s1" /\ {| sessionId := Some "s1" |} = {| sessionId := Some "s1" |} /\
    Js.truthy_header (session_header req) = false /\
    @isInitializeRequest reference_sdk (body req) = true /\
    initialized (@transport_handleRequest reference_sdk {| sessionId := None |} req)
      = true)).
Proof.
  cbv zeta.
  assert (H : transports
            (@handlePostRequest reference_sdk (new empty_server)
               {| http_method := POST; session_header := None;
                  body := initialize_body |} "s1" "e0").1
            !! "s1" = Some {| sessionId := Some "s1" |}) by (vm_compute; reflexivity).
  split; [exact H|].
  destruct (@only_initialize_adds_a_session reference_sdk (new empty_server)
              {| http_method := POST; session_header := None; body := initialize_body |}
              "s1" "e0" "s1" {| sessionId := Some "s1" |}) as [Hpost _].
  exact (Hpost H).
Defined.

(** X6: a session opened by an initialization POST is found again.  When a
    POST without identifier carries an initialization message, the protocol
    server connects and the transport completes the handshake without
    closing, the new transport is stored under the generated identifier, and
    a later POST or GET that carries this identifier is handed to that very
    transport. *)
Theorem initialized_session_is_reused `{sdk : SDK} st req session_uuid uuid :
  Js.truthy_header (session_header req) = false ->
  isInitializeRequest (body req) = true ->
  server_connect (server st) {| sessionId := None |} = true ->
  initialized (transport_handleRequest {| sessionId := None |} req) = true ->
  closed (transport_handleRequest {| sessionId := None |} req) = false ->
  session_uuid <> "" ->
  let opened := {| sessionId := Some session_uuid |} in
  let st' := (handlePostRequest st req session_uuid uuid).1 in
  transports st' !! session_uuid = Some opened /\
  forall req' session_uuid' uuid',
    session_header req' = Some session_uuid ->
    thrown (transport_handleRequest opened req') = false ->
    (handlePostRequest st' req' session_uuid' uuid').2 = Delegated opened /\
    (handleGetRequest st' req' uuid').2 = Delegated opened.
Proof.
  intros Hhdr Hinit Hconnect Hdone Hopen Hne opened st'.
  assert (Hst' : st' = onsessioninitialized st session_uuid opened).
  { subst st'. unfold handlePostRequest.
    rewrite (resolve_falsy _ _ Hhdr), Hhdr, Hinit, Hconnect. cbn.
    unfold after_handle. by rewrite Hdone, Hopen. }
  assert (Hstored : transports st' !! session_uuid = Some opened).
  { rewrite Hst'. cbn. apply lookup_insert_eq. }
  split; [exact Hstored|].
  intros req' session_uuid' uuid' Hhdr' Hthrown.
  apply truthy_string_nonempty in Hne.
  unfold handlePostRequest, handleGetRequest, resolve, get_property.
  by rewrite Hhdr', Hne, Hstored, Hthrown.
Qed.

Lemma initialized_session_is_reused_witness :
  let req := {| http_method := POST; session_header := None;
                body := initialize_body |} in
  let req' := {| http_method := POST; session_header := Some "s1";
                 body := "{jsonrpc: 2.0, id: 1, method: tools/list}" |} in
  let st' := (@handlePostRequest reference_sdk (new empty_server) req "s1" "e0").1 in
  @isInitializeRequest reference_sdk (body req) = true /\
  transports st' !! "s1" = Some {| sessionId := Some "s1" |} /\
  (@handlePostRequest reference_sdk st' req' "s2" "e1").2
    = Delegated {| sessionId := Some "s1" |}.
Proof.
  cbv zeta. split; [reflexivity|].
  destruct (@initialized_session_is_reused reference_sdk (new empty_server)
              {| http_method := POST; session_header := None; body := initialize_body |}
              "s1" "e0") as [Hstored Hreuse];
    [reflexivity | reflexivity | reflexivity | reflexivity | reflexivity
    | discriminate |].
  split; [exact Hstored|].
  apply (Hreuse {| http_method := POST; session_header := Some "s1";
                   body := "{jsonrpc: 2.0, id: 1, method: tools/list}" |} "s2" "e1");
    reflexivity.
Defined.

(** X7: on a reachable server every transport in the session table is filed
    under its own session identifier, the multi-step tool is named
    "multi-great", and the two tool names differ and are not empty. *)
Theorem reachable_server_is_well_formed `{sdk : SDK} st :
  reachable st ->
  (forall sid transport,
     transports st !! sid = Some transport -> sessionId transport = Some sid) /\
  multiGreetToolName st = "multi-great" /\
  singleGreetToolName st <> multiGreetToolName st /\
  singleGreetToolName st <> "" /\
  multiGreetToolName st <> "".
Proof.
  intros Hinv%reachable_invariant.
  split; [apply (inv_table _ Hinv)|]. split; [apply (inv_multi _ Hinv)|].
  split; [|split].
  - intros Heq. pose proof (multi_is_not_single _ Hinv) as Hne.
    rewrite Heq, String.eqb_refl in Hne. discriminate.
  - apply truthy_string_nonempty, single_name_truthy, Hinv.
  - apply truthy_string_nonempty, multi_name_truthy, Hinv.
Qed.

Lemma reachable_server_is_well_formed_witness :
  let st := (@handlePostRequest reference_sdk (new empty_server)
               {| http_method := POST; session_header := None;
                  body := initialize_body |} "s1" "e0").1 in
  @reachable reference_sdk st /\
  transports st !! "s1" = Some {| sessionId := Some "s1" |} /\
  multiGreetToolName st = "multi-great" /\
  singleGreetToolName st <> multiGreetToolName st.
Proof.
  cbv zeta.
  assert (Hreach : @reachable reference_sdk
            (@handlePostRequest reference_sdk (new empty_server)
               {| http_method := POST; session_header := None;
                  body := initialize_body |} "s1" "e0").1).
  { exists empty_server. eapply rtc_l; [apply step_post | apply rtc_refl]. }
  split; [exact Hreach|]. split; [vm_compute; reflexivity|].
  destruct (@reachable_server_is_well_formed reference_sdk _ Hreach)
    as (_ & Hmulti & Hdiff & _).
  split; [exact Hmulti | exact Hdiff].
Defined.

(** ** Tool calls that fail *)

Lemma eqb_append_same_prefix (p a b : string) :
  String.eqb (p +:+ a) (p +:+ b) = String.eqb a b.
Proof.
  induction p as [|c p IH]; [done|].
  simpl. by rewrite Ascii.eqb_refl.
Qed.

(** X8: a tool name learned from one tool-list response is dead after the
    next one.  On a reachable server, once a second list request has been
    served with another UUID, a call under the name the first response
    listed for the single-response tool fails with "Tool not found",
    whatever its arguments, and sends nothing. *)
Theorem relisting_invalidates_listed_name `{sdk : SDK} st extra
    (args : gmap string Js.value) (uuid1 uuid2 : string) tr :
  reachable st ->
  uuid1 <> uuid2 ->
  let listed := listToolsHandler st uuid1 in
  let relisted := listToolsHandler listed.1 uuid2 in
  tool_name <$> tools listed.2 = ["single-greeting-" +:+ uuid1; "multi-great"] /\
  callToolHandler relisted.1 extra
    {| req_arguments := Some args; req_name := "single-greeting-" +:+ uuid1 |} tr =
  (tr, Thrown "Tool not found").
Proof.
  intros Hinv%reachable_invariant Hne. cbv zeta. split.
  - cbn. by rewrite (inv_multi _ Hinv).
  - unfold callToolHandler. cbn.
    rewrite (eqb_append_same_prefix "single-greeting-" uuid1 uuid2).
    apply String.eqb_neq in Hne. rewrite Hne.
    by rewrite (inv_multi _ Hinv).
Qed.

Lemma relisting_invalidates_listed_name_witness :
  @reachable reference_sdk (new empty_server) /\
  "u1" <> "u2" /\
  callToolHandler
    (listToolsHandler (listToolsHandler (new empty_server) "u1").1 "u2").1
    delivering_extra
    {| req_arguments := Some {["name" := Js.JStr "arjun"]};
       req_name := "single-greeting-u1" |} [] =
  ([], Thrown "Tool not found").
Proof.
  split; [apply reachable_new|]. split; [discriminate|].
  apply (@relisting_invalidates_listed_name reference_sdk (new empty_server)
           delivering_extra {["name" := Js.JStr "arjun"]} "u1" "u2" []).
  - apply reachable_new.
  - discriminate.
Defined.

(** X9: a tool call is checked before anything is sent, in this order: a
    request without arguments fails with "arguments undefined"; with
    arguments but an empty tool name, with "tool name undefined"; with a
    name that is neither tool's current name, with "Tool not found".  In all
    three cases the session's trace is left as it was. *)
Theorem call_is_checked_before_sending st extra request tr :
  (req_arguments request = None ->
   callToolHandler st extra request tr = (tr, Thrown "arguments undefined")) /\
  (is_Some (req_arguments request) ->
   req_name request = "" ->
   callToolHandler st extra request tr = (tr, Thrown "tool name undefined")) /\
  (is_Some (req_arguments request) ->
   req_name request <> "" ->
   req_name request <> singleGreetToolName st ->
   req_name request <> multiGreetToolName st ->
   callToolHandler st extra request tr = (tr, Thrown "Tool not found")).
Proof.
  unfold callToolHandler. split; [|split].
  - by intros ->.
  - intros [args ->] ->. done.
  - intros [args ->] Hne%truthy_string_nonempty
      Hsingle%String.eqb_neq Hmulti%String.eqb_neq.
    by rewrite Hne, Hsingle, Hmulti.
Qed.

Lemma call_is_checked_before_sending_witness :
  callToolHandler (new empty_server) delivering_extra
    {| req_arguments := None; req_name := "single-greet" |} [] =
  ([], Thrown "arguments undefined") /\
  callToolHandler (new empty_server) delivering_extra
    {| req_arguments := Some ∅; req_name := "" |} [] =
  ([], Thrown "tool name undefined") /\
  callToolHandler (new empty_server) delivering_extra
    {| req_arguments := Some ∅; req_name := "greet" |} [] =
  ([], Thrown "Tool not found").
Proof.
  split; [|split].
  - apply (call_is_checked_before_sending (new empty_server) delivering_extra
             {| req_arguments := None; req_name := "single-greet" |} []).
    reflexivity.
  - apply (call_is_checked_before_sending (new empty_server) delivering_extra
             {| req_arguments := Some ∅; req_name := "" |} []);
      [by eexists | reflexivity].
  - apply (call_is_checked_before_sending (new empty_server) delivering_extra
             {| req_arguments := Some ∅; req_name := "greet" |} []);
      [by eexists | discriminate | discriminate | discriminate].
Defined.



(** ** Shutdown *)

Section CleanupFacts.
Variable transport_close : Transport -> CloseResult.

Lemma cleanup_session_shrinks st visited sid stored :
  transports (cleanup_session transport_close st visited) !! sid = Some stored ->
  transports st !! sid = Some stored.
Proof.
  unfold cleanup_session.
  destruct (transports st !! visited) as [transport|]; [|done].
  destruct (close_thrown _), (ran_onclose _); cbn.
  - apply onclose_shrinks.
  - done.
  - intros [_ H]%lookup_delete_Some. by apply onclose_shrinks in H.
  - by intros [_ H]%lookup_delete_Some.
Qed.

Lemma cleanup_loop_shrinks (keys : list string) st sid stored :
  transports (foldl (cleanup_session transport_close) st keys) !! sid = Some stored ->
  transports st !! sid = Some stored.
Proof.
  revert st. induction keys as [|visited keys IH]; intros st; cbn; [done|].
  intros H%IH. by apply cleanup_session_shrinks in H.
Qed.

Lemma cleanup_session_removes st sid :
  (forall transport,
     transports st !! sid = Some transport ->
     close_thrown (transport_close transport) = false) ->
  transports (cleanup_session transport_close st sid) !! sid = None.
Proof.
  intros Hok. unfold cleanup_session.
  destruct (transports st !! sid) as [transport|] eqn:Hlook; [|done].
  rewrite (Hok transport eq_refl). cbn. apply lookup_delete_eq.
Qed.

Lemma cleanup_loop_removes (keys : list string) st sid :
  sid ∈ keys ->
  (forall transport,
     transports st !! sid = Some transport ->
     close_thrown (transport_close transport) = false) ->
  transports (foldl (cleanup_session transport_close) st keys) !! sid = None.
Proof.
  revert st. induction keys as [|visited keys IH]; intros st Hin Hok.
  { by apply elem_of_nil in Hin. }
  cbn. apply elem_of_cons in Hin as [<-|Hin].
  - apply eq_None_not_Some. intros [stored Hstored].
    apply cleanup_loop_shrinks in Hstored.
    by rewrite cleanup_session_removes in Hstored.
  - apply IH; [done|]. intros transport H%cleanup_session_shrinks. by apply Hok.
Qed.

Lemma cleanup_session_frame st visited :
  server (cleanup_session transport_close st visited) = server st /\
  toolInterval (cleanup_session transport_close st visited) = toolInterval st /\
  singleGreetToolName (cleanup_session transport_close st visited)
    = singleGreetToolName st /\
  multiGreetToolName (cleanup_session transport_close st visited)
    = multiGreetToolName st.
Proof.
  unfold cleanup_session.
  destruct (transports st !! visited) as [transport|]; [|done].
  destruct (close_thrown _), (ran_onclose _); cbn;
    first [apply onclose_frame | done].
Qed.

Lemma cleanup_loop_frame (keys : list string) st :
  server (foldl (cleanup_session transport_close) st keys) = server st /\
  toolInterval (foldl (cleanup_session transport_close) st keys) = toolInterval st /\
  singleGreetToolName (foldl (cleanup_session transport_close) st keys)
    = singleGreetToolName st /\
  multiGreetToolName (foldl (cleanup_session transport_close) st keys)
    = multiGreetToolName st.
Proof.
  revert st. induction keys as [|visited keys IH]; intros st; cbn; [done|].
  destruct (IH (cleanup_session transport_close st visited)) as (-> & -> & -> & ->).
  apply cleanup_session_frame.
Qed.

Lemma cleanup_session_invariant st visited :
  invariant st -> invariant (cleanup_session transport_close st visited).
Proof.
  intros Hinv. unfold cleanup_session.
  destruct (transports st !! visited) as [transport|]; [|done].
  assert (invariant (if ran_onclose (transport_close transport)
                     then onclose st transport else st)) as Hinv'
    by (destruct (ran_onclose _); [by apply invariant_onclose | done]).
  destruct (close_thrown _); [done|].
  apply invariant_with_transports; [done|].
  intros sid stored [_ H]%lookup_delete_Some. by apply (inv_table _ Hinv').
Qed.

Lemma cleanup_session_other st visited sid :
  invariant st ->
  visited <> sid ->
  transports (cleanup_session transport_close st visited) !! sid
    = transports st !! sid.
Proof.
  intros Hinv Hne. unfold cleanup_session.
  destruct (transports st !! visited) as [transport|] eqn:Hlook; [|done].
  pose proof (inv_table _ Hinv _ _ Hlook) as Hsid.
  assert (transports (onclose st transport) !! sid = transports st !! sid) as Hkept.
  { unfold onclose. rewrite Hsid. destruct (_ && _); [|done]. cbn.
    by apply lookup_delete_ne. }
  destruct (close_thrown _), (ran_onclose _); cbn;
    rewrite ?lookup_delete_ne by done; done.
Qed.

End CleanupFacts.

(** X11: [cleanup()] closes every session it can and is not stopped by one
    that cannot be closed.  A session still in the table after the loop was
    there before it and its [close()] threw; if no [close()] throws the
    table ends empty.  The loop changes nothing else in the server. *)
Theorem cleanup_leaves_only_failed_closes (transport_close : Transport -> CloseResult)
    st :
  (forall sid transport,
     transports (cleanup transport_close st) !! sid = Some transport ->
     transports st !! sid = Some transport /\
     close_thrown (transport_close transport) = true) /\
  ((forall transport, close_thrown (transport_close transport) = false) ->
   transports (cleanup transport_close st) = ∅) /\
  server (cleanup transport_close st) = server st /\
  toolInterval (cleanup transport_close st) = toolInterval st /\
  singleGreetToolName (cleanup transport_close st) = singleGreetToolName st /\
  multiGreetToolName (cleanup transport_close st) = multiGreetToolName st.
Proof.
  assert (Hleft : forall sid transport,
            transports (cleanup transport_close st) !! sid = Some transport ->
            transports st !! sid = Some transport /\
            close_thrown (transport_close transport) = true).
  { intros sid transport Hafter.
    pose proof (cleanup_loop_shrinks _ _ _ _ _ Hafter) as Hbefore.
    split; [done|].
    destruct (close_thrown (transport_close transport)) eqn:Hthrown; [done|].
    unfold cleanup in Hafter. rewrite cleanup_loop_removes in Hafter; [done| |].
    - apply list_elem_of_fmap. exists (sid, transport). split; [done|].
      by apply elem_of_map_to_list.
    - intros transport' Hlook. congruence. }
  split; [exact Hleft|]. split; [|apply cleanup_loop_frame].
  intros Hok. apply map_eq. intros sid. rewrite lookup_empty.
  apply eq_None_not_Some. intros [transport Hafter].
  destruct (Hleft _ _ Hafter) as [_ Hthrown]. by rewrite Hok in Hthrown.
Qed.

Lemma cleanup_leaves_only_failed_closes_witness :
  let a := {| sessionId := Some "session-a" |} in
  let b := {| sessionId := Some "session-b" |} in
  let st := with_transports (new empty_server)
              (<["session-a" := a]> (<["session-b" := b]> ∅)) in
  let closing := fun _ : Transport => {| ran_onclose := true; close_thrown := false |} in
  (forall transport, close_thrown (closing transport) = false) /\
  transports st !! "session-a" = Some a /\
  transports (cleanup closing st) = ∅.
Proof.
  cbv zeta. split; [reflexivity|]. split; [vm_compute; reflexivity|].
  apply (cleanup_leaves_only_failed_closes
           (fun _ : Transport => {| ran_onclose := true; close_thrown := false |})).
  reflexivity.
Defined.

(** X12: on a reachable server, a session whose [close()] throws before
    running the close hook is still in the table after [cleanup()], under
    the same transport: closing the other sessions does not remove it. *)
Theorem cleanup_keeps_session_that_fails_to_close `{sdk : SDK}
    (transport_close : Transport -> CloseResult) st sid transport :
  reachable st ->
  transports st !! sid = Some transport ->
  close_thrown (transport_close transport) = true ->
  ran_onclose (transport_close transport) = false ->
  transports (cleanup transport_close st) !! sid = Some transport.
Proof.
  intros Hinv%reachable_invariant Hlook Hthrown Hran. unfold cleanup.
  generalize ((map_to_list (transports st)).*1). intros keys.
  revert st Hinv Hlook. induction keys as [|visited keys IH]; intros st Hinv Hlook; [done|].
  cbn. apply IH; [by apply cleanup_session_invariant|].
  destruct (decide (visited = sid)) as [->|Hne].
  - unfold cleanup_session. by rewrite Hlook, Hthrown, Hran.
  - by rewrite cleanup_session_other.
Qed.

Lemma cleanup_keeps_session_that_fails_to_close_witness :
  let st := (@handlePostRequest reference_sdk (new empty_server)
               {| http_method := POST; session_header := None;
                  body := initialize_body |} "s1" "e0").1 in
  let stuck := fun _ : Transport => {| ran_onclose := false; close_thrown := true |} in
  @reachable reference_sdk st /\
  transports st !! "s1" = Some {| sessionId := Some "s1" |} /\
  transports (cleanup stuck st) !! "s1" = Some {| sessionId := Some "s1" |}.
Proof.
  cbv zeta.
  assert (Hreach : @reachable reference_sdk
            (@handlePostRequest reference_sdk (new empty_server)
               {| http_method := POST; session_header := None;
                  body := initialize_body |} "s1" "e0").1).
  { exists empty_server. eapply rtc_l; [apply step_post | apply rtc_refl]. }
  split; [exact Hreach|]. split; [vm_compute; reflexivity|].
  apply (@cleanup_keeps_session_that_fails_to_close reference_sdk
           (fun _ : Transport => {| ran_onclose := false; close_thrown := true |}));
    [exact Hreach | vm_compute; reflexivity | reflexivity | reflexivity].
Defined.

(** ** The client against the server *)

(** X13: one round of the client's [main] against a reachable server whose
    notifications are delivered.  [listTools()] leaves the client with the
    two tools under the names just listed, and calling each of them in
    turn with [{name: "arjun"}] gives, for the first, the one result "Hey
    arjun! Welcome to itsuki's world!", and for the second the two greeting
    notifications followed by "Hope you enjoy your day!". *)
Theorem client_lists_then_calls `{sdk : SDK} st extra (uuid : string)
    (c : MCPClient.t) :
  reachable st ->
  (forall tr m, extra_sendNotification extra tr m = None) ->
  let listed := listToolsHandler st uuid in
  let client := MCPClient.listTools c (Returned listed.2) in
  MCPClient.tools client =
    [ {| MCPClient.name := "single-greeting-" +:+ uuid;
         MCPClient.description := "Greet the user once." |};
      {| MCPClient.name := "multi-great";
         MCPClient.description :=
           "Greet the user multiple times with delay in between." |} ] /\
  (fun request => session_messages (callToolHandler listed.1 extra request []))
  <$> MCPClient.main_calls client =
    [ [ ResultMessage
          {| content :=
               [ {| type := "text";
                    text := "Hey arjun! Welcome to itsuki's world!" |} ] |} ];
      [ NotificationMessage
          {| method := "notifications/message";
             params := Some {| level := "info"; data := "First greet to arjun" |} |};
        NotificationMessage
          {| method := "notifications/message";
             params := Some {| level := "info"; data := "Second greet to arjun" |} |};
        ResultMessage
          {| content :=
               [ {| type := "text"; text := "Hope you enjoy your day!" |} ] |} ] ].
Proof.
  intros Hinv%reachable_invariant Hsend. cbv zeta.
  assert (Hinv' : invariant (listToolsHandler st uuid).1)
    by (eapply invariant_step; [apply (step_list st uuid) | done]).
  pose proof (inv_multi _ Hinv) as Hmulti.
  split.
  - cbn. by rewrite Hmulti.
  - unfold MCPClient.main_calls, MCPClient.listTools, MCPClient.entries,
      MCPClient.callTool.
    cbn [fmap list_fmap tools snd MCPClient.tools MCPClient.name tool_name
         listToolsHandler].
    f_equal; [|f_equal].
    + change ("single-greeting-" +:+ uuid)
        with (singleGreetToolName (listToolsHandler st uuid).1).
      rewrite (single_greet_run _ _ _ _ Hinv').
      unfold Js.get. by rewrite lookup_singleton_eq.
    + change (multiGreetToolName
                (with_singleGreetToolName st ("single-greeting-" +:+ uuid)))
        with (multiGreetToolName (listToolsHandler st uuid).1).
      rewrite (multi_greet_run _ extra {["name" := Js.JStr "arjun"]} Hinv' Hsend).
      unfold Js.get. by rewrite lookup_singleton_eq.
Qed.

Lemma client_lists_then_calls_witness :
  let listed := listToolsHandler (new empty_server) "u1" in
  let client := MCPClient.listTools {| MCPClient.tools := [] |} (Returned listed.2) in
  @reachable reference_sdk (new empty_server) /\
  (forall tr m, extra_sendNotification delivering_extra tr m = None) /\
  MCPClient.name <$> MCPClient.tools client = ["single-greeting-u1"; "multi-great"].
Proof.
  cbv zeta. split; [apply reachable_new|]. split; [reflexivity|].
  destruct (@client_lists_then_calls reference_sdk (new empty_server)
              delivering_extra "u1" {| MCPClient.tools := [] |}
              (reachable_new empty_server)) as [Htools _]; [reflexivity|].
  by rewrite Htools.
Defined.

(** ** Sessions against each other *)

Lemma onclose_other st transport (other : string) :
  sessionId transport <> Some other ->
  transports (onclose st transport) !! other = transports st !! other.
Proof.
  intros Hother. unfold onclose.
  destruct (sessionId transport) as [sid|]; [|done].
  destruct (_ && _); [|done]. cbn.
  apply lookup_delete_ne. congruence.
Qed.

Lemma after_handle_other `{sdk : SDK} st transport r (other : string) :
  sessionId transport <> Some other ->
  transports (after_handle st transport r) !! other = transports st !! other.
Proof.
  intros Hother. unfold after_handle.
  destruct (closed r); [by apply onclose_other | done].
Qed.

Lemma resolve_Own_header st h transport :
  resolve st h = Own transport ->
  exists sid, h = Some sid /\ transports st !! sid = Some transport.
Proof.
  unfold resolve, get_property. destruct h as [sid|]; [|done].
  destruct (Js.truthy_string sid); [|done].
  destruct (transports st !! sid) as [stored|] eqn:Hlook.
  - intros [= <-]. by exists sid.
  - by destruct (existsb _ _).
Qed.

(** X14: a request cannot disturb a session it does not name.  On a
    reachable server, whatever a GET, POST or DELETE does and whatever its
    transport does, the table entry of every session identifier other than
    the one in the request's header and the one generated for the request
    is the same after the request as before. *)
Theorem request_keeps_other_sessions `{sdk : SDK} st req session_uuid uuid
    (other : string) :
  reachable st ->
  session_header req <> Some other ->
  other <> session_uuid ->
  transports (handleGetRequest st req uuid).1 !! other = transports st !! other /\
  transports (handlePostRequest st req session_uuid uuid).1 !! other
    = transports st !! other /\
  transports (handleDeleteRequest st req).1 !! other = transports st !! other.
Proof.
  intros Hinv%reachable_invariant Hhdr Hfresh.
  assert (Hown : forall transport,
            resolve st (session_header req) = Own transport ->
            sessionId transport <> Some other).
  { intros transport (sid & Hsid & Hlook)%resolve_Own_header.
    rewrite (inv_table _ Hinv _ _ Hlook). congruence. }
  split; [|split].
  - unfold handleGetRequest.
    destruct (resolve _ _) as [transport| |] eqn:Hres; cbn; [|done|done].
    by apply after_handle_other, Hown.
  - unfold handlePostRequest.
    destruct (resolve _ _) as [transport| |] eqn:Hres; cbn; [|done|].
    { by apply after_handle_other, Hown. }
    destruct (_ && _); [|done].
    destruct (negb (server_connect _ _)); [done|]. cbn.
    destruct (initialized _); cbn.
    + rewrite after_handle_other by (cbn; congruence).
      cbn. by apply lookup_insert_ne.
    + by rewrite after_handle_other.
  - unfold handleDeleteRequest.
    destruct (resolve _ _) as [transport| |] eqn:Hres; cbn; [|done|done].
    by apply after_handle_other, Hown.
Qed.

Lemma request_keeps_other_sessions_witness :
  let st := (@handlePostRequest reference_sdk (new empty_server)
               {| http_method := POST; session_header := None;
                  body := initialize_body |} "s1" "e0").1 in
  let req := {| http_method := DELETE; session_header := Some "s2"; body := "" |} in
  @reachable reference_sdk st /\
  session_header req <> Some "s1" /\
  "s1" <> "s3" /\
  transports (@handleDeleteRequest reference_sdk st req).1 !! "s1"
    = Some {| sessionId := Some "s1" |}.
Proof.
  cbv zeta.
  assert (Hreach : @reachable reference_sdk
            (@handlePostRequest reference_sdk (new empty_server)
               {| http_method := POST; session_header := None;
                  body := initialize_body |} "s1" "e0").1).
  { exists empty_server. eapply rtc_l; [apply step_post | apply rtc_refl]. }
  split; [exact Hreach|]. split; [discriminate|]. split; [discriminate|].
  destruct (@request_keeps_other_sessions reference_sdk _
              {| http_method := DELETE; session_header := Some "s2"; body := "" |}
              "s3" "e1" "s1" Hreach) as (_ & _ & Hdelete);
    [discriminate | discriminate |].
  rewrite Hdelete. vm_compute; reflexivity.
Defined.

(** X15: once the close hook of a session has run, its identifier is no
    longer accepted.  For a transport with a session identifier as
    [randomUUID()] makes them (not empty, not the name of an inherited
    member), after [onclose] a POST or a GET that carries this identifier
    is answered with status 400 and the invalid-session error, and a DELETE
    with status 400 and the text "Invalid or missing session ID". *)
Theorem closed_session_is_rejected `{sdk : SDK} st transport sid req
    session_uuid uuid :
  sessionId transport = Some sid ->
  sid <> "" ->
  sid ∉ Object_prototype_members ->
  session_header req = Some sid ->
  let st' := onclose st transport in
  handlePostRequest st' req session_uuid uuid =
    (st', Sent 400 (JsonPayload
            (createErrorResponse "Bad Request: invalid session ID or method." uuid))) /\
  handleGetRequest st' req uuid =
    (st', Sent 400 (JsonPayload
            (createErrorResponse "Bad Request: invalid session ID or method." uuid))) /\
  handleDeleteRequest st' req =
    (st', Sent 400 (TextPayload "Invalid or missing session ID")).
Proof.
  intros Hsid Hne Hmem Hhdr st'.
  assert (Hres : resolve st' (session_header req) = Undefined).
  { rewrite Hhdr. apply resolve_unknown; [done| |done].
    subst st'. by apply onclose_removes. }
  unfold handlePostRequest, handleGetRequest, handleDeleteRequest.
  rewrite Hres, Hhdr. cbn.
  apply truthy_string_nonempty in Hne. by rewrite Hne.
Qed.

Lemma closed_session_is_rejected_witness :
  let opened := {| sessionId := Some "s1" |} in
  let st := with_transports (new empty_server) (<["s1" := opened]> ∅) in
  let req := {| http_method := GET; session_header := Some "s1"; body := "" |} in
  ("s1" ∉ Object_prototype_members) /\
  (@handleGetRequest reference_sdk st req "e1").2 = Delegated opened /\
  (@handleGetRequest reference_sdk (onclose st opened) req "e1").2 =
    Sent 400 (JsonPayload
      (createErrorResponse "Bad Request: invalid session ID or method." "e1")).
Proof.
  cbv zeta.
  assert (Hmem : "s1" ∉ Object_prototype_members).
  { intros Hin%list_elem_of_In. cbn in Hin. intuition discriminate. }
  split; [exact Hmem|]. split; [vm_compute; reflexivity|].
  destruct (@closed_session_is_rejected reference_sdk
              (with_transports (new empty_server)
                 (<["s1" := {| sessionId := Some "s1" |}]> ∅))
              {| sessionId := Some "s1" |} "s1"
              {| http_method := GET; session_header := Some "s1"; body := "" |}
              "s2" "e1") as (_ & Hget & _);
    [reflexivity | discriminate | exact Hmem | reflexivity |].
  by rewrite Hget.
Defined.
